(** * The category page of the lighting catalogue

    A shallow embedding of [src/app/products/category/page.jsx]: the
    module-level product table, the two [useState] cells of the
    [Category] component, its only event handler, and the element tree
    the component returns.  Styling ([className]) and the tween of the
    slide-in panel are left out; every prop that carries data or a
    handler is kept.  The tiles of the product grid are also evaluated
    the way the script does it, entry by entry with property reads that
    can throw, and related to the tree above. *)

From stdpp Require Import gmap strings list pretty.

(** ** Static data *)

(** An entry of [lightingProducts]: [{ name, image }]. *)
Record Product := { name : string; image : string }.

Definition lightingProducts : list Product :=
  [ {| name := "Spot Down Series"; image := "https://png.pngtree.com/element_pic/16/12/06/5d79b5dd066400e188713f7dd417a3f4.png" |};
    {| name := "Tracks System"; image := "https://png.pngtree.com/element_pic/16/12/06/5d79b5dd066400e188713f7dd417a3f4.png" |};
    {| name := "Modular Series"; image := "https://png.pngtree.com/element_pic/16/12/06/5d79b5dd066400e188713f7dd417a3f4.png" |};
    {| name := "Panel & General Lighting"; image := "https://png.pngtree.com/element_pic/16/12/06/5d79b5dd066400e188713f7dd417a3f4.png" |};
    {| name := "Pendant Series"; image := "https://png.pngtree.com/element_pic/16/12/06/5d79b5dd066400e188713f7dd417a3f4.png" |};
    {| name := "Ceiling Surface Series"; image := "https://png.pngtree.com/element_pic/16/12/06/5d79b5dd066400e188713f7dd417a3f4.png" |};
    {| name := "Profile Series"; image := "https://png.pngtree.com/element_pic/16/12/06/5d79b5dd066400e188713f7dd417a3f4.png" |} ].

(** The three array literals that both filter panels map over.  The
    source writes each literal twice (once in the mobile [motion.aside],
    once in the desktop [aside]) with the same strings. *)
Definition mountingTypes : list string :=
  [ "Ceiling recessed"; "Recessed Suspended"; "Surface Mounted"; "Suspended";
    "Surface Suspended Recessed" ].

Definition lightDistributions : list string :=
  [ "A10-A32 wide 100% direct"; "A40-A44 medium 100% direct";
    "A50-A80 narrow 100% direct"; "B41-B63 narrow direct" ].

Definition lampTypes : list string := [ "LED"; "CONLGB" ].

(** ** Component state *)

(** The two hook cells of [Category]:
    [const [filters, setFilters] = useState({})] and
    [const [showFilters, setShowFilters] = useState(false)].
    [filters] is a JS object used as a map; the source never stores
    anything in it, the value type (a set of option strings per group
    label) is the one the data model of the specification gives. *)
Record State := {
  filters : gmap string (gset string);
  showFilters : bool
}.

Definition initial : State := {| filters := ∅; showFilters := false |}.

(** The setters returned by [useState], called with an updater function. *)
Definition setFilters (f : gmap string (gset string) → gmap string (gset string))
    (st : State) : State :=
  {| filters := f (filters st); showFilters := showFilters st |}.

Definition setShowFilters (f : bool → bool) (st : State) : State :=
  {| filters := filters st; showFilters := f (showFilters st) |}.

(** [const toggleFilters = () => setShowFilters(prev => !prev)] *)
Definition toggleFilters (st : State) : State :=
  setShowFilters (λ prev, negb prev) st.

(** The selected set of a group: the entry of [filters] under the
    group's label, a missing key reading as the empty set. *)
Definition selected (st : State) (group : string) : gset string :=
  default ∅ (filters st !! group).

(** ** The rendered tree *)

(** The closures the component body creates and hands to elements.
    [toggleFilters] is the only one: [setFilters] is bound by the
    destructuring on line 18 and then never mentioned again. *)
Inductive Handler := ToggleFilters.

Definition runHandler (h : Handler) (st : State) : State :=
  match h with
  | ToggleFilters => toggleFilters st
  end.

(** [<input type="checkbox" className="mr-2" />]: neither [checked] nor
    [onChange] is passed. *)
Record Input := {
  type : string;
  checked : option bool;
  onChange : option Handler
}.

(** [<label key={item} ...><input .../> {item}</label>] *)
Record Label := { key : string; input : Input; text : string }.

(** An [<h2>] followed by the labels of one mapped array. *)
Record Group := { heading : string; labels : list Label }.

(** One product tile: [<a href=... key={index}>] around an [<img>] and
    an [<h3>]. *)
Record Card := {
  href : string;
  index : nat;
  src : string;
  alt : string;
  h3 : string
}.

(** The [x] the mobile panel is animated to: [0] or ['-100%']. *)
Inductive Offset := Zero | MinusFull.

Record View := {
  button_onClick : option Handler;
  aside_initial_x : Offset;
  aside_animate_x : Offset;
  aside_mobile : list Group;
  aside_desktop : list Group;
  results : string;
  grid : list Card
}.

Definition checkbox (item : string) : Label :=
  {| key := item;
     input := {| type := "checkbox"; checked := None; onChange := None |};
     text := item |}.

Definition filterPanel : list Group :=
  [ {| heading := "Mounting type"; labels := checkbox <$> mountingTypes |};
    {| heading := "Light distribution"; labels := checkbox <$> lightDistributions |};
    {| heading := "Lamp Type"; labels := checkbox <$> lampTypes |} ].

Definition card (index : nat) (product : Product) : Card :=
  {| href := "/products/category/objects/";
     index := index;
     src := image product;
     alt := name product;
     h3 := name product |}.

Section Render.

(** The product table the grid maps over; [lightingProducts] in the
    source. *)
Variable catalog : list Product.

Definition render (st : State) : View :=
  {| button_onClick := Some ToggleFilters;
     aside_initial_x := MinusFull;
     aside_animate_x := if showFilters st then Zero else MinusFull;
     aside_mobile := filterPanel;
     aside_desktop := filterPanel;
     results := pretty (length catalog) +:+ " Results";
     grid := imap card catalog |}.

End Render.

(** The component, as a function of its hook state. *)
Definition Category (st : State) : View := render lightingProducts st.

(** The products on screen, read back from the tiles of the grid: what
    the specification calls the visible products. *)
Definition shown (c : Card) : Product := {| name := h3 c; image := src c |}.

Definition gridProducts (v : View) : list Product := shown <$> grid v.

(** ** Events *)

Inductive Surface := Mobile | Desktop.

(** What a user can do on the page: press the filter icon, or click a
    checkbox of one of the two panels (named by the heading it stands
    under and its label).  Following a tile's link leaves the page. *)
Inductive Event :=
  | ClickFilterIcon
  | ClickCheckbox (surface : Surface) (group item : string).

Definition aside (surface : Surface) (v : View) : list Group :=
  match surface with
  | Mobile => aside_mobile v
  | Desktop => aside_desktop v
  end.

(** The handler, if any, the rendered tree holds for an event. *)
Definition handlerOf (v : View) (e : Event) : option Handler :=
  match e with
  | ClickFilterIcon => button_onClick v
  | ClickCheckbox surface group item =>
      g ← find (λ g, bool_decide (heading g = group)) (aside surface v);
      l ← find (λ l, bool_decide (key l = item)) (labels g);
      onChange (input l)
  end.

(** One event: the handler found in the current tree runs; an event
    without handler leaves the hook state as it is. *)
Inductive step (st : State) : Event → State → Prop :=
  | step_handled e h :
      handlerOf (Category st) e = Some h → step st e (runHandler h st)
  | step_ignored e :
      handlerOf (Category st) e = None → step st e st.

Definition dispatch (e : Event) (st : State) : State :=
  match handlerOf (Category st) e with
  | Some h => runHandler h st
  | None => st
  end.

Inductive reachable : State → Prop :=
  | reachable_initial : reachable initial
  | reachable_step st e st' : reachable st → step st e st' → reachable st'.

(** An option belongs to a group when the panel lists it under that
    group's heading. *)
Definition knownOption (group item : string) : Prop :=
  Exists (λ g, heading g = group ∧ Exists (λ l, key l = item) (labels g))
         filterPanel.

#[global] Instance knownOption_dec group item : Decision (knownOption group item).
Proof. unfold knownOption. apply _. Defined.

(** The selection only names options of the group it files them under. *)
Definition selectionValid (st : State) : Prop :=
  ∀ group item, item ∈ selected st group → knownOption group item.

(** ** Sessions *)

#[global] Instance Surface_eq_dec : EqDecision Surface.
Proof. solve_decision. Defined.

#[global] Instance Event_eq_dec : EqDecision Event.
Proof. solve_decision. Defined.

(** The events of a session, handled one after the other. *)
Definition run (es : list Event) (st : State) : State :=
  foldl (λ st e, dispatch e st) st es.

(** How often the filter icon is pressed during a session. *)
Definition presses (es : list Event) : nat :=
  length (filter (λ e, e = ClickFilterIcon) es).

(** ** Evaluating the grid entry by entry

    The callback of [lightingProducts.map] reads [product.image] and
    [product.name] of every entry.  Reading a property of [undefined]
    or [null] throws a TypeError; reading a key an object does not have
    gives [undefined], and the attribute or text is then left out. *)

Inductive Thrown := TypeError.

#[global] Instance Thrown_ret : MRet (sum Thrown) := λ A x, inr x.

#[global] Instance Thrown_bind : MBind (sum Thrown) :=
  λ A B f m, match m with inl e => inl e | inr x => f x end.

(** What a table can hold at one position: [undefined] or [null]
    written out (a hole of a sparse array is skipped by [map] and is no
    entry), or an object with string properties. *)
Inductive Entry :=
  | EUndefined
  | ENull
  | EObject (fields : gmap string string).

Definition isObject (v : Entry) : bool :=
  match v with
  | EObject _ => true
  | EUndefined | ENull => false
  end.

(** [v.k] *)
Definition getProp (v : Entry) (k : string) : Thrown + option string :=
  match v with
  | EObject fields => inr (fields !! k)
  | EUndefined | ENull => inl TypeError
  end.

(** A tile as the callback builds it; [None] is an [undefined] prop. *)
Record Tile := {
  a_href : string;
  a_key : nat;
  img_src : option string;
  img_alt : option string;
  h3_text : option string
}.

(** The callback [(product, index) => <a ...>...</a>]: the props are
    evaluated in the order they are written. *)
Definition tile (index : nat) (product : Entry) : Thrown + Tile :=
  src ← getProp product "image";
  alt ← getProp product "name";
  text ← getProp product "name";
  mret {| a_href := "/products/category/objects/";
          a_key := index;
          img_src := src;
          img_alt := alt;
          h3_text := text |}.

(** [table.map(callback)], from position [index] on: the first throw
    ends the evaluation. *)
Fixpoint mapTiles (index : nat) (table : list Entry) : Thrown + list Tile :=
  match table with
  | [] => mret []
  | product :: rest =>
      t ← tile index product;
      ts ← mapTiles (S index) rest;
      mret (t :: ts)
  end.

Definition evalGrid (table : list Entry) : Thrown + list Tile :=
  mapTiles 0 table.



(** The events the page can receive: the filter icon is always there; a
    checkbox can be clicked when the panel renders one with that key
    under that heading. *)
Definition receivable (v : View) (e : Event) : Prop :=
  match e with
  | ClickFilterIcon => True
  | ClickCheckbox surface group item =>
      Exists (λ g, heading g = group ∧ Exists (λ l, key l = item) (labels g))
             (aside surface v)
  end.

#[global] Instance receivable_dec v e : Decision (receivable v e).
Proof. destruct e; simpl; apply _. Defined.

(** ** Basic facts *)

Section Facts.

Implicit Types (st : State) (e : Event) (catalog : list Product).

Lemma handlerOf_checkbox st surface group item :
  handlerOf (Category st) (ClickCheckbox surface group item) = None.
Proof.
  assert (Hpanel : ∀ g, g ∈ filterPanel →
            ∀ l, l ∈ labels g → onChange (input l) = None).
  { intros g Hg l Hl. unfold filterPanel in Hg.
    repeat (apply elem_of_cons in Hg as [-> | Hg]);
      try (by apply elem_of_nil in Hg);
      cbn [labels] in Hl; apply list_elem_of_fmap in Hl as (item' & -> & _);
      reflexivity. }
  unfold handlerOf.
  replace (aside surface (Category st)) with filterPanel by (by destruct surface).
  destruct (find _ filterPanel) as [g|] eqn:Hg; [|done].
  apply find_some in Hg as [Hg _]. apply list_elem_of_In in Hg.
  cbn [mbind option_bind].
  destruct (find _ (labels g)) as [l|] eqn:Hl; [|done].
  apply find_some in Hl as [Hl _]. apply list_elem_of_In in Hl.
  by apply (Hpanel g).
Qed.

Lemma handlerOf_icon st : handlerOf (Category st) ClickFilterIcon = Some ToggleFilters.
Proof. reflexivity. Qed.

Lemma dispatch_icon st : dispatch ClickFilterIcon st = toggleFilters st.
Proof. reflexivity. Qed.

Lemma dispatch_checkbox st surface group item :
  dispatch (ClickCheckbox surface group item) st = st.
Proof. unfold dispatch. by rewrite handlerOf_checkbox. Qed.

Lemma step_dispatch st e st' : step st e st' ↔ dispatch e st = st'.
Proof.
  unfold dispatch. split.
  - intros [e' h H | e' H]; by rewrite H.
  - intros <-. destruct (handlerOf (Category st) e) eqn:H.
    + by apply step_handled.
    + by apply step_ignored.
Qed.

Lemma dispatch_filters e st : filters (dispatch e st) = filters st.
Proof.
  destruct e; [reflexivity|]. by rewrite dispatch_checkbox.
Qed.

Lemma step_filters st e st' : step st e st' → filters st' = filters st.
Proof. intros <-%step_dispatch. apply dispatch_filters. Qed.

Lemma reachable_filters st : reachable st → filters st = ∅.
Proof.
  induction 1 as [|st e st' _ IH Hstep]; [reflexivity|].
  by rewrite (step_filters _ _ _ Hstep).
Qed.

Lemma selected_empty_map st group : filters st = ∅ → selected st group = ∅.
Proof. intros H. unfold selected. by rewrite H, lookup_empty. Qed.

Lemma toggleFilters_twice st : toggleFilters (toggleFilters st) = st.
Proof. destruct st as [f b]. unfold toggleFilters, setShowFilters. simpl.
       by rewrite negb_involutive. Qed.

Lemma shown_imap_card catalog : shown <$> imap card catalog = catalog.
Proof.
  assert (H : ∀ (f : nat → Product → Card), (∀ i p, shown (f i p) = p) →
              shown <$> imap f catalog = catalog).
  { induction catalog as [|p ps IH]; intros f Hf; [reflexivity|].
    simpl. rewrite Hf. f_equal. apply IH. intros i q. apply Hf. }
  apply H. intros i [n im]. reflexivity.
Qed.

Lemma gridProducts_render catalog st :
  gridProducts (render catalog st) = catalog.
Proof. apply shown_imap_card. Qed.

End Facts.

(** ** Selecting filter options *)

(** C1, as the code has it: clicking the checkbox of option [item] under
    [group], on either panel, twice in a row leaves the selection for
    [group] equal to the selection before the first click; a single click
    leaves the membership of [item] in the selected set for [group] as it
    was, because the checkbox carries no [onChange]. *)
Theorem checkbox_click_keeps_selection st surface group item :
  selected (dispatch (ClickCheckbox surface group item)
              (dispatch (ClickCheckbox surface group item) st)) group
    = selected st group
  ∧ (item ∈ selected (dispatch (ClickCheckbox surface group item) st) group
       ↔ item ∈ selected st group).
Proof. by rewrite !dispatch_checkbox. Qed.

(** C1 as stated asks a single call to flip the membership of the option.
    From the initial state, one click on "LED" under "Lamp Type" does not:
    "LED" was not selected and still is not. *)
Lemma checkbox_click_does_not_flip :
  ¬ ("LED" ∈ selected (dispatch (ClickCheckbox Mobile "Lamp Type" "LED") initial)
               "Lamp Type"
       ↔ "LED" ∉ selected initial "Lamp Type").
Proof.
  rewrite dispatch_checkbox. intros [_ Hflip].
  assert (Hout : "LED" ∉ selected initial "Lamp Type").
  { rewrite selected_empty_map by reflexivity. apply not_elem_of_empty. }
  exact (Hout (Hflip Hout)).
Qed.

(** ** The product grid *)

(** C2: for every product table, when the selected set of every group is
    empty the products on screen are the whole table, in table order. *)
Theorem empty_selection_shows_catalog catalog st :
  (∀ group, selected st group = ∅) →
  gridProducts (render catalog st) = catalog.
Proof. intros _. apply gridProducts_render. Qed.

Lemma empty_selection_shows_catalog_witness :
  (∀ group, selected initial group = ∅)
  ∧ gridProducts (render lightingProducts initial) = lightingProducts.
Proof.
  assert (H : ∀ group, selected initial group = ∅).
  { intros group. unfold selected. simpl. rewrite lookup_empty. reflexivity. }
  split; [exact H|].
  exact (empty_selection_shows_catalog lightingProducts initial H).
Defined.

(** C3: the products on screen do not depend on the selection.  Two
    states that differ in [filters] render the same grid and the same
    result count, both show every product of the table, and in
    particular selecting "LED" under "Lamp Type" shows what the empty
    selection shows. *)
Theorem selection_does_not_affect_grid catalog
    (sel sel' : gmap string (gset string)) (b b' : bool) :
  gridProducts (render catalog {| filters := sel; showFilters := b |})
    = gridProducts (render catalog {| filters := sel'; showFilters := b' |})
  ∧ results (render catalog {| filters := sel; showFilters := b |})
    = results (render catalog {| filters := sel'; showFilters := b' |})
  ∧ gridProducts (render catalog {| filters := sel; showFilters := b |}) = catalog
  ∧ gridProducts
      (Category {| filters := {[ "Lamp Type" := {[ "LED" ]} ]}; showFilters := b |})
    = gridProducts (Category {| filters := ∅; showFilters := b |}).
Proof.
  split_and!; try reflexivity. apply gridProducts_render.
Qed.

(** C7: with the seven-entry table of the source and nothing selected,
    the grid shows exactly the seven products in the order of the table,
    "Spot Down Series" first and "Profile Series" last. *)
Theorem seven_products_in_listed_order st :
  (∀ group, selected st group = ∅) →
  gridProducts (Category st) = lightingProducts
  ∧ name <$> gridProducts (Category st)
    = [ "Spot Down Series"; "Tracks System"; "Modular Series";
        "Panel & General Lighting"; "Pendant Series";
        "Ceiling Surface Series"; "Profile Series" ]
  ∧ length (gridProducts (Category st)) = 7
  ∧ name <$> head (gridProducts (Category st)) = Some "Spot Down Series"
  ∧ name <$> last (gridProducts (Category st)) = Some "Profile Series".
Proof.
  intros _. unfold Category. rewrite gridProducts_render.
  split_and!; reflexivity.
Qed.

Lemma seven_products_in_listed_order_witness :
  (∀ group, selected initial group = ∅)
  ∧ name <$> last (gridProducts (Category initial)) = Some "Profile Series".
Proof.
  assert (H : ∀ group, selected initial group = ∅).
  { intros group. unfold selected. simpl. rewrite lookup_empty. reflexivity. }
  split; [exact H|].
  exact (proj2 (proj2 (proj2 (proj2 (seven_products_in_listed_order initial H))))).
Defined.

(** ** The drawer *)

(** C4: [toggleFilters], the handler of the filter icon, flips
    [showFilters]; applied twice it gives back the state it started
    from. *)
Theorem toggleFilters_involution st :
  dispatch ClickFilterIcon st = toggleFilters st
  ∧ showFilters (toggleFilters st) = negb (showFilters st)
  ∧ showFilters (toggleFilters (toggleFilters st)) = showFilters st
  ∧ toggleFilters (toggleFilters st) = st.
Proof.
  split_and!; try reflexivity.
  - by rewrite toggleFilters_twice.
  - apply toggleFilters_twice.
Qed.

(** C5: toggling the drawer leaves [filters] alone, once and across an
    open/close cycle, and clicking a checkbox leaves [showFilters]
    alone. *)
Theorem drawer_and_selection_independent st :
  filters (toggleFilters st) = filters st
  ∧ filters (toggleFilters (toggleFilters st)) = filters st
  ∧ filters (dispatch ClickFilterIcon (dispatch ClickFilterIcon st)) = filters st
  ∧ (∀ surface group item,
       showFilters (dispatch (ClickCheckbox surface group item) st) = showFilters st).
Proof.
  split_and!; try reflexivity.
  intros. by rewrite dispatch_checkbox.
Qed.

(** C6: the drawer is a machine over the two values of [showFilters].
    It starts closed (and the panel is rendered off screen); a state is
    closed or open; pressing the filter icon always moves to the other
    value; and every step is either that press, which flips the flag, or
    another event, which keeps it.  The event type has no timer. *)
Theorem drawer_two_state_machine :
  (showFilters initial = false ∧ aside_animate_x (Category initial) = MinusFull)
  ∧ (∀ st, showFilters st = false ∨ showFilters st = true)
  ∧ (∀ st, step st ClickFilterIcon (toggleFilters st)
           ∧ showFilters (toggleFilters st) = negb (showFilters st))
  ∧ (∀ st e st', step st e st' →
       (e = ClickFilterIcon ∧ showFilters st' = negb (showFilters st))
       ∨ (e ≠ ClickFilterIcon ∧ showFilters st' = showFilters st)).
Proof.
  split_and!.
  - reflexivity.
  - reflexivity.
  - intros st. destruct (showFilters st); auto.
  - intros st. split; [|reflexivity]. by apply step_dispatch.
  - intros st e st' <-%step_dispatch. destruct e as [|surface group item].
    + left. split; reflexivity.
    + right. split; [discriminate|]. by rewrite dispatch_checkbox.
Qed.

Lemma drawer_two_state_machine_witness :
  step initial ClickFilterIcon (toggleFilters initial)
  ∧ ((ClickFilterIcon = ClickFilterIcon
      ∧ showFilters (toggleFilters initial) = negb (showFilters initial))
     ∨ (ClickFilterIcon ≠ ClickFilterIcon
        ∧ showFilters (toggleFilters initial) = showFilters initial)).
Proof.
  assert (H : step initial ClickFilterIcon (toggleFilters initial)).
  { apply (step_handled initial ClickFilterIcon ToggleFilters). reflexivity. }
  split; [exact H|].
  exact (proj2 (proj2 (proj2 drawer_two_state_machine))
           initial ClickFilterIcon (toggleFilters initial) H).
Defined.

(** ** Invariants of the reachable states *)

(** C8: the selection never names an option outside the group it is
    filed under.  This holds initially, every step preserves it from
    any state where it holds, and so it holds in every reachable
    state. *)
Theorem selection_stays_within_groups :
  selectionValid initial
  ∧ (∀ st e st', selectionValid st → step st e st' → selectionValid st')
  ∧ (∀ st, reachable st → selectionValid st).
Proof.
  assert (Hinit : selectionValid initial).
  { intros group item. rewrite selected_empty_map by reflexivity.
    intros []%not_elem_of_empty. }
  assert (Hstep : ∀ st e st', selectionValid st → step st e st' → selectionValid st').
  { intros st e st' Hvalid Hst group item. unfold selected.
    rewrite (step_filters _ _ _ Hst). apply Hvalid. }
  split_and!; [done..|].
  induction 1; eauto.
Qed.

Lemma LED_selection_valid :
  selectionValid {| filters := {[ "Lamp Type" := {[ "LED" ]} ]}; showFilters := false |}.
Proof.
  intros group item. unfold selected. simpl.
  destruct (decide (group = "Lamp Type")) as [->|Hne].
  - rewrite lookup_singleton_eq. simpl. intros ->%elem_of_singleton.
    by apply (bool_decide_unpack _).
  - rewrite lookup_singleton_ne by done. simpl. intros []%not_elem_of_empty.
Qed.

Lemma selection_stays_within_groups_witness :
  selectionValid
    (toggleFilters {| filters := {[ "Lamp Type" := {[ "LED" ]} ]}; showFilters := false |})
  ∧ selectionValid (toggleFilters initial).
Proof.
  split.
  - apply (proj1 (proj2 selection_stays_within_groups)
             {| filters := {[ "Lamp Type" := {[ "LED" ]} ]}; showFilters := false |}
             ClickFilterIcon).
    + exact LED_selection_valid.
    + apply (step_handled _ ClickFilterIcon ToggleFilters). reflexivity.
  - apply (proj2 (proj2 selection_stays_within_groups)).
    apply (reachable_step initial ClickFilterIcon).
    + exact reachable_initial.
    + apply (step_handled _ ClickFilterIcon ToggleFilters). reflexivity.
Defined.

(** C10: no handler writes [filters].  In every reachable state it is the
    empty map, the result line reads the length of the table, "7
    Results", which is also the number of tiles in the grid, and every
    checkbox of either panel is rendered without [checked] and without
    [onChange]. *)
Theorem filters_never_written st :
  reachable st →
  filters st = ∅
  ∧ results (Category st) = pretty (length lightingProducts) +:+ " Results"
  ∧ results (Category st) = "7 Results"
  ∧ length (grid (Category st)) = length lightingProducts
  ∧ length (gridProducts (Category st)) = length lightingProducts
  ∧ (∀ surface g l, g ∈ aside surface (Category st) → l ∈ labels g →
       checked (input l) = None ∧ onChange (input l) = None).
Proof.
  intros Hreach. split_and!.
  - by apply reachable_filters.
  - reflexivity.
  - reflexivity.
  - reflexivity.
  - reflexivity.
  - intros surface g l Hg Hl.
    replace (aside surface (Category st)) with filterPanel in Hg
      by (by destruct surface).
    unfold filterPanel in Hg.
    repeat (apply elem_of_cons in Hg as [-> | Hg]);
      try (by apply elem_of_nil in Hg);
      cbn [labels] in Hl; apply list_elem_of_fmap in Hl as (item & -> & _);
      split; reflexivity.
Qed.

Lemma filters_never_written_witness :
  reachable (toggleFilters initial)
  ∧ filters (toggleFilters initial) = ∅
  ∧ results (Category (toggleFilters initial)) = "7 Results".
Proof.
  assert (H : reachable (toggleFilters initial)).
  { apply (reachable_step initial ClickFilterIcon).
    - exact reachable_initial.
    - apply (step_handled _ ClickFilterIcon ToggleFilters). reflexivity. }
  split; [exact H|].
  pose proof (filters_never_written (toggleFilters initial) H) as (Hf & _ & Hr & _).
  split; [exact Hf | exact Hr].
Defined.

(** ** Totality *)

Section Totality.

Implicit Types (st : State) (e : Event) (catalog : list Product)
  (table : list Entry).





End Totality.



(** X11: evaluating the grid over a table throws a TypeError exactly
    when some entry of the table is [undefined] or [null]; objects,
    whatever properties they have or lack, never make it throw. *)
Theorem evalGrid_throws_iff (table : list Entry) :
  evalGrid table = inl TypeError ↔ Exists (λ v, isObject v = false) table.
Proof.
  unfold evalGrid. generalize 0 as i.
  induction table as [|v vs IH]; intros i.
  - split; [discriminate|]. by intros ?%Exists_nil.
  - rewrite Exists_cons. cbn [mapTiles].
    destruct v as [| |fields]; cbn [tile getProp mbind Thrown_bind isObject].
    + tauto.
    + tauto.
    + specialize (IH (S i)).
      destruct (mapTiles (S i) vs) as [[]|ts];
        cbn [mbind Thrown_bind mret Thrown_ret]; split.
      * intros _. right. by apply IH.
      * done.
      * discriminate.
      * intros [?|H]; [done|]. by apply IH in H.
Qed.

(** ** Sessions of events *)

Section Sessions.

Implicit Types (st : State) (e : Event) (es : list Event).

Lemma State_eq st st' :
  filters st = filters st' → showFilters st = showFilters st' → st = st'.
Proof. destruct st, st'. simpl. by intros -> ->. Qed.

Lemma run_cons e es st : run (e :: es) st = run es (dispatch e st).
Proof. reflexivity. Qed.

Lemma run_app es es' st : run (es ++ es') st = run es' (run es st).
Proof. apply foldl_app. Qed.

Lemma presses_app es es' : presses (es ++ es') = presses es + presses es'.
Proof. unfold presses. by rewrite filter_app, length_app. Qed.

Lemma run_filters es st : filters (run es st) = filters st.
Proof.
  revert st. induction es as [|e es IH]; intros st; [reflexivity|].
  by rewrite run_cons, IH, dispatch_filters.
Qed.

Lemma run_showFilters es st :
  showFilters (run es st) = xorb (showFilters st) (Nat.odd (presses es)).
Proof.
  revert st. induction es as [|e es IH]; intros st.
  - simpl. by rewrite xorb_false_r.
  - rewrite run_cons, IH. destruct e as [|surface group item].
    + change (presses (ClickFilterIcon :: es)) with (S (presses es)).
      rewrite Nat.odd_succ, <- Nat.negb_odd, dispatch_icon. simpl.
      by destruct (showFilters st), (Nat.odd (presses es)).
    + by rewrite dispatch_checkbox.
Qed.

Lemma reachable_run st : reachable st ↔ ∃ es, run es initial = st.
Proof.
  split.
  - induction 1 as [|st e st' _ [es <-] <-%step_dispatch].
    + by exists [].
    + exists (es ++ [e]). by rewrite run_app.
  - intros [es <-]. induction es as [|e es IH] using rev_ind.
    + apply reachable_initial.
    + rewrite run_app. eapply reachable_step; [exact IH|].
      by apply step_dispatch.
Qed.

End Sessions.

(** X1: over a whole session, from any state, [filters] is what it was
    and [showFilters] has been flipped once per press of the filter icon:
    it differs from its starting value exactly when the icon was pressed
    an odd number of times.  Counted from page load, the panel is
    rendered on screen exactly then, whatever checkboxes were clicked in
    between. *)
Theorem session_drawer_parity es st :
  filters (run es st) = filters st
  ∧ showFilters (run es st) = xorb (showFilters st) (Nat.odd (presses es))
  ∧ aside_animate_x (Category (run es initial))
    = (if Nat.odd (presses es) then Zero else MinusFull).
Proof.
  split_and!.
  - apply run_filters.
  - apply run_showFilters.
  - simpl. by rewrite run_showFilters.
Qed.

(** X2: the order of the events of a session does not matter: two
    sessions with the same events in a different order end in the same
    state. *)
Theorem session_order_irrelevant es es' st :
  es ≡ₚ es' → run es st = run es' st.
Proof.
  intros Hperm. apply State_eq.
  - by rewrite !run_filters.
  - rewrite !run_showFilters. unfold presses. by rewrite Hperm.
Qed.

Lemma session_order_irrelevant_witness :
  [ ClickFilterIcon; ClickCheckbox Mobile "Lamp Type" "LED" ]
    ≡ₚ [ ClickCheckbox Mobile "Lamp Type" "LED"; ClickFilterIcon ]
  ∧ run [ ClickFilterIcon; ClickCheckbox Mobile "Lamp Type" "LED" ] initial
    = run [ ClickCheckbox Mobile "Lamp Type" "LED"; ClickFilterIcon ] initial.
Proof.
  assert (H : [ ClickFilterIcon; ClickCheckbox Mobile "Lamp Type" "LED" ]
                ≡ₚ [ ClickCheckbox Mobile "Lamp Type" "LED"; ClickFilterIcon ]).
  { apply perm_swap. }
  split; [exact H|].
  exact (session_order_irrelevant _ _ initial H).
Defined.

(** X3: a session played twice in a row ends where it started. *)
Theorem session_twice_is_identity es st : run (es ++ es) st = st.
Proof.
  apply State_eq.
  - apply run_filters.
  - rewrite run_showFilters, presses_app, Nat.odd_add, xorb_nilpotent.
    apply xorb_false_r.
Qed.

(** X4: the page has exactly two reachable states, the initial one and
    the one with the drawer open. *)
Theorem reachable_two_states st :
  reachable st ↔ st = initial ∨ st = toggleFilters initial.
Proof.
  split.
  - intros [es <-]%reachable_run.
    destruct (Nat.odd (presses es)) eqn:Hodd; [right|left].
    all: apply State_eq; [by rewrite run_filters|].
    all: by rewrite run_showFilters, Hodd.
  - intros [-> | ->].
    + apply reachable_initial.
    + apply (reachable_step initial ClickFilterIcon); [apply reachable_initial|].
      by apply step_dispatch.
Qed.

(** ** What the tree shows *)

(** X5: the rendered tree depends on the state through [showFilters]
    only: for any product table, two states render the same tree exactly
    when their [showFilters] agree. *)
Theorem render_depends_on_showFilters_only catalog st st' :
  render catalog st = render catalog st' ↔ showFilters st = showFilters st'.
Proof.
  split.
  - intros H. apply (f_equal aside_animate_x) in H. simpl in H.
    by destruct (showFilters st), (showFilters st').
  - intros H. unfold render. by rewrite H.
Qed.

(** X6: the keys of the tiles are their positions: for a table of [n]
    products the grid carries the keys [0 .. n-1] in order, so no two
    tiles share a key even when the table repeats a product. *)
Theorem grid_keys_are_positions catalog st :
  index <$> grid (render catalog st) = seq 0 (length catalog)
  ∧ NoDup (index <$> grid (render catalog st)).
Proof.
  assert (H : index <$> grid (render catalog st) = seq 0 (length catalog)).
  { simpl. rewrite fmap_imap.
    rewrite (imap_ext _ (λ j _, id j)) by done.
    by rewrite imap_seq_0, list_fmap_id. }
  split; [exact H|]. rewrite H. apply NoDup_seq.
Qed.

(** X7: every tile of the grid, for any product table, links to the same
    static route, uses the product's name both as the image's [alt] and
    as its heading, and is the tile of the product found in the table at
    the tile's own key. *)
Theorem tile_shows_product_at_its_key catalog st c :
  c ∈ grid (render catalog st) →
  href c = "/products/category/objects/"
  ∧ alt c = h3 c
  ∧ catalog !! index c = Some (shown c).
Proof.
  simpl. intros (i & [n im] & -> & Hi)%elem_of_lookup_imap. by split_and!.
Qed.

Lemma tile_shows_product_at_its_key_witness :
  card 0 {| name := "Spot Down Series"; image := "https://png.pngtree.com/element_pic/16/12/06/5d79b5dd066400e188713f7dd417a3f4.png" |}
    ∈ grid (render lightingProducts initial)
  ∧ lightingProducts !! 0
    = Some {| name := "Spot Down Series"; image := "https://png.pngtree.com/element_pic/16/12/06/5d79b5dd066400e188713f7dd417a3f4.png" |}.
Proof.
  assert (H : card 0 {| name := "Spot Down Series"; image := "https://png.pngtree.com/element_pic/16/12/06/5d79b5dd066400e188713f7dd417a3f4.png" |}
                ∈ grid (render lightingProducts initial)).
  { apply list_elem_of_here. }
  split; [exact H|].
  exact (proj2 (proj2 (tile_shows_product_at_its_key lightingProducts initial _ H))).
Defined.

Lemma string_length_app (s t : string) :
  String.length (s +:+ t) = String.length s + String.length t.
Proof. induction s as [|a s IH]; simpl; [reflexivity|]. by rewrite IH. Qed.

Lemma string_app_inv_tail (s1 s2 t : string) : s1 +:+ t = s2 +:+ t → s1 = s2.
Proof.
  revert s2. induction s1 as [|a s1 IH]; intros [|b s2] H.
  - reflexivity.
  - apply (f_equal String.length) in H.
    rewrite !string_length_app in H. simpl in H. lia.
  - apply (f_equal String.length) in H.
    rewrite !string_length_app in H. simpl in H. lia.
  - change (String a (s1 +:+ t) = String b (s2 +:+ t)) in H.
    injection H as -> H. f_equal. by apply IH.
Qed.

(** X8: the result line counts the tiles.  For any two product tables,
    the lines read the same exactly when the grids have the same number
    of tiles; an empty table gives an empty grid under "0 Results". *)
Theorem result_line_counts_tiles catalog catalog' st st' :
  (results (render catalog st) = results (render catalog' st')
   ↔ length (grid (render catalog st)) = length (grid (render catalog' st')))
  ∧ results (render [] st) = "0 Results"
  ∧ grid (render [] st) = [].
Proof.
  split_and!; [|reflexivity..].
  simpl. rewrite !length_imap. split.
  - intros H%string_app_inv_tail. by apply (inj pretty) in H.
  - by intros ->.
Qed.

(** X9: in either panel, and in every state, a heading and a key name
    one checkbox: looking up the heading of a rendered group finds that
    group, looking up the key of one of its checkboxes finds that
    checkbox, and the keys under one heading are pairwise distinct. *)
Theorem checkbox_found_by_heading_and_key surface st g l :
  g ∈ aside surface (Category st) → l ∈ labels g →
  find (λ g', bool_decide (heading g' = heading g)) (aside surface (Category st))
    = Some g
  ∧ find (λ l', bool_decide (key l' = key l)) (labels g) = Some l
  ∧ NoDup (key <$> labels g).
Proof.
  replace (aside surface (Category st)) with filterPanel by (by destruct surface).
  intros Hg Hl. unfold filterPanel in Hg.
  repeat (apply elem_of_cons in Hg as [-> | Hg]);
    try (by apply elem_of_nil in Hg).
  all: split_and!; [reflexivity| |by apply (bool_decide_unpack _)].
  all: cbn in Hl.
  all: repeat (apply elem_of_cons in Hl as [-> | Hl]);
         try (by apply elem_of_nil in Hl); reflexivity.
Qed.

Lemma checkbox_found_by_heading_and_key_witness :
  find (λ l', bool_decide (key l' = "CONLGB")) (checkbox <$> lampTypes)
    = Some (checkbox "CONLGB").
Proof.
  assert (Hg : {| heading := "Lamp Type"; labels := checkbox <$> lampTypes |}
                 ∈ aside Desktop (Category initial)).
  { apply list_elem_of_further, list_elem_of_further, list_elem_of_here. }
  assert (Hl : checkbox "CONLGB"
                 ∈ labels {| heading := "Lamp Type"; labels := checkbox <$> lampTypes |}).
  { apply list_elem_of_further, list_elem_of_here. }
  exact (proj1 (proj2 (checkbox_found_by_heading_and_key Desktop initial _ _ Hg Hl))).
Defined.
